(** * Compression middleware for HybridBuffer: the codec adapter

    A shallow embedding of [compression.go].  The package is a thin adapter
    over the codec packages of klauspost/compress: it stores an algorithm
    selector and an abstract level, and its two methods [Writer] and [Reader]
    dispatch on the selector, translate the level to the codec's native scale
    and wrap the codec's handle.

    The codec packages themselves are not part of the repository.  They are
    taken as a parameter ([Library]): handle types, constructors, the level
    constants and the stream operations.  What the packages promise (their
    documented contract) is stated separately as [Conforming] and appears as
    a hypothesis of exactly the theorems that need it. *)

From Stdlib Require Import ZArith List String Bool Lia.
From Stdlib.Strings Require Import Byte.
Import ListNotations.
Open Scope Z_scope.

Set Implicit Arguments.

(** ** Bytes, buffers and outcomes *)

Definition bytes := list byte.

(** [bytes.Buffer] used as a sink: writes append and never fail. *)
Definition Buffer := bytes.

Definition Buffer_Write (b : Buffer) (p : bytes) : Buffer := (b ++ p)%list.

(** A Go call either returns a value, returns a non-nil [error], or panics. *)
Inductive outcome (A : Type) : Type :=
| Ok (a : A)
| Failed (err : string)
| Panicked (msg : string).

Arguments Ok {A} a.
Arguments Failed {A} err.
Arguments Panicked {A} msg.

(** ** The data model of the package *)

(** [type Algorithm int]: every integer is a value of the type. *)
Definition Algorithm := Z.

Definition Gzip : Algorithm := 0.
Definition Zstd : Algorithm := 1.
Definition S2 : Algorithm := 2.
Definition Snappy : Algorithm := 3.
Definition Zlib : Algorithm := 4.
Definition Flate : Algorithm := 5.

(** [type Level int] *)
Definition Level := Z.

Definition Fastest : Level := 0.
Definition Default : Level := 1.
Definition Better : Level := 2.
Definition Best : Level := 3.

Record Middleware : Type := {
  algorithm : Algorithm;
  level : Level
}.

(** [type Option func(m)] over a pointer [m] to the adapter: an option
    updates the adapter in place. *)
Definition Option := Middleware -> Middleware.

Definition WithLevel (lv : Level) : Option :=
  fun m => {| algorithm := algorithm m; level := lv |}.

(** [New]: the literal, then the options applied in order. *)
Definition New (alg : Algorithm) (opts : list Option) : Middleware :=
  fold_left (fun m opt => opt m) opts {| algorithm := alg; level := Default |}.

(** ** Methods with a pointer receiver

    [Writer], [Reader] and the [create...] helpers have a pointer
    to the adapter as receiver: they run against the adapter and could assign its fields.
    A method is therefore a state transformer over the adapter that ends in
    an [outcome]. *)

Definition Method (A : Type) : Type := Middleware -> outcome A * Middleware.

Definition ret {A} (a : A) : Method A := fun m => (Ok a, m).

Definition panic {A} (msg : string) : Method A := fun m => (Panicked msg, m).

Definition lift {A} (o : outcome A) : Method A := fun m => (o, m).

Definition self : Method Middleware := fun m => (Ok m, m).

Definition bind {A B} (c : Method A) (k : A -> Method B) : Method B :=
  fun m =>
    match c m with
    | (Ok a, m') => k a m'
    | (Failed e, m') => (Failed e, m')
    | (Panicked s, m') => (Panicked s, m')
    end.

Notation "x <- c ;; k" := (bind c (fun x => k))
  (at level 61, c at next level, right associativity).

(** ** The codec packages, as a parameter *)

(** The stream operations of one codec package.  An encoder is bound to a
    sink when it is made; [stream_Write] and [stream_Close] give the bytes the
    encoder pushes into that sink.  The sink is an in-memory buffer, so these
    two report no error.  [stream_ReadAll] is [io.ReadAll] on the decoder: the
    bytes read until end of stream, or the decoder's error. *)
Record Stream : Type := {
  enc : Type;
  dec : Type;
  stream_Write : enc -> bytes -> enc * bytes;
  stream_Close : enc -> bytes;
  stream_ReadAll : dec -> string + bytes
}.

(** The level constants of a deflate-family package (gzip, zlib, flate). *)
Record DeflateLevels : Type := {
  NoCompression : Z;
  BestSpeed : Z;
  BestCompression : Z;
  DefaultCompression : Z
}.

(** [zstd.EncoderLevel] constants. *)
Record ZstdLevels : Type := {
  SpeedFastest : Z;
  SpeedDefault : Z;
  SpeedBetterCompression : Z;
  SpeedBestCompression : Z
}.

Class Library : Type := {
  gzip : Stream;
  gzip_levels : DeflateLevels;
  gzip_NewWriterLevel : Z -> string + enc gzip;
  gzip_NewReader : bytes -> string + dec gzip;

  zstd : Stream;
  zstd_levels : ZstdLevels;
  zstd_NewWriter : Z -> string + enc zstd;
  zstd_NewReader : bytes -> string + dec zstd;

  s2 : Stream;
  s2_NewWriter : enc s2;
  s2_NewReader : bytes -> dec s2;

  snappy : Stream;
  snappy_NewBufferedWriter : enc snappy;
  snappy_NewReader : bytes -> dec snappy;

  zlib : Stream;
  zlib_levels : DeflateLevels;
  zlib_NewWriterLevel : Z -> string + enc zlib;
  zlib_NewReader : bytes -> string + dec zlib;

  flate : Stream;
  flate_levels : DeflateLevels;
  flate_NewWriter : Z -> string + enc flate;
  flate_NewReader : bytes -> dec flate
}.

Section Adapter.

Context {lib : Library}.

(** ** The values behind [io.Writer] and [io.Reader] *)

(** The dynamic type of the writer a [Writer] call returns: a wrapper struct
    around the codec's encoder, or the codec's own writer for s2 and snappy. *)
Inductive WriterImpl : Type :=
| gzipWriteCloser (w : enc gzip)
| zstdWriteCloser (e : enc zstd)
| s2_Writer (w : enc s2)
| snappy_Writer (w : enc snappy)
| zlibWriteCloser (w : enc zlib)
| flateWriteCloser (w : enc flate).

(** A writer together with the sink it was bound to. *)
Record io_Writer : Type := {
  impl : WriterImpl;
  sink : Buffer
}.

(** The dynamic type of the reader a [Reader] call returns. *)
Inductive io_Reader : Type :=
| gzip_Reader (r : dec gzip)
| zstdReadCloser (d : dec zstd)
| s2_Reader (r : dec s2)
| snappy_Reader (r : dec snappy)
| zlibReadCloser (r : dec zlib)
| flateReadCloser (r : dec flate).

(** [Write] is promoted from the embedded encoder in every wrapper. *)
Definition Write (w : io_Writer) (p : bytes) : io_Writer :=
  let push {s : Stream} (wrap : enc s -> WriterImpl) (e : enc s) :=
    let (e', out) := stream_Write s e p in
    {| impl := wrap e'; sink := Buffer_Write (sink w) out |} in
  match impl w with
  | gzipWriteCloser e => push gzipWriteCloser e
  | zstdWriteCloser e => push zstdWriteCloser e
  | s2_Writer e => push s2_Writer e
  | snappy_Writer e => push snappy_Writer e
  | zlibWriteCloser e => push zlibWriteCloser e
  | flateWriteCloser e => push flateWriteCloser e
  end.

(** [Close]: each wrapper delegates to its encoder's [Close]; the s2 and
    snappy writers are the codec's own and close themselves.  The result is
    the sink after the final flush. *)
Definition Close (w : io_Writer) : Buffer :=
  match impl w with
  | gzipWriteCloser e => Buffer_Write (sink w) (stream_Close gzip e)
  | zstdWriteCloser e => Buffer_Write (sink w) (stream_Close zstd e)
  | s2_Writer e => Buffer_Write (sink w) (stream_Close s2 e)
  | snappy_Writer e => Buffer_Write (sink w) (stream_Close snappy e)
  | zlibWriteCloser e => Buffer_Write (sink w) (stream_Close zlib e)
  | flateWriteCloser e => Buffer_Write (sink w) (stream_Close flate e)
  end.

(** [io.ReadAll] on a reader: [Read] is promoted from the embedded decoder. *)
Definition ReadAll (r : io_Reader) : outcome bytes :=
  let run (res : string + bytes) :=
    match res with
    | inl err => Failed err
    | inr data => Ok data
    end in
  match r with
  | gzip_Reader d => run (stream_ReadAll gzip d)
  | zstdReadCloser d => run (stream_ReadAll zstd d)
  | s2_Reader d => run (stream_ReadAll s2 d)
  | snappy_Reader d => run (stream_ReadAll snappy d)
  | zlibReadCloser d => run (stream_ReadAll zlib d)
  | flateReadCloser d => run (stream_ReadAll flate d)
  end.

(** ** Level translation

    The [switch m.level] of each [create...Writer]: the local [level] starts
    at the zero value of its type and the switch has no [default] case.  The
    gzip, zlib and flate switches are the same text over the constants of
    their own package, so one definition takes the constants as [c].
    [BestCompression - 1] is a constant expression and is evaluated exactly. *)

Definition deflateLevel (c : DeflateLevels) (lv : Level) : Z :=
  if lv =? Fastest then BestSpeed c
  else if lv =? Default then DefaultCompression c
  else if lv =? Better then BestCompression c - 1
  else if lv =? Best then BestCompression c
  else 0.

Definition zstdLevel (lv : Level) : Z :=
  if lv =? Fastest then SpeedFastest zstd_levels
  else if lv =? Default then SpeedDefault zstd_levels
  else if lv =? Better then SpeedBetterCompression zstd_levels
  else if lv =? Best then SpeedBestCompression zstd_levels
  else 0.

(** ** The factory helpers *)

Definition createGzipWriter (w : Buffer) : Method io_Writer :=
  m <- self ;;
  let level := deflateLevel gzip_levels (level m) in
  match gzip_NewWriterLevel level with
  | inl err => panic ("failed to create gzip writer: " ++ err)
  | inr gzipWriter => ret {| impl := gzipWriteCloser gzipWriter; sink := w |}
  end.

Definition createGzipReader (r : bytes) : Method io_Reader :=
  match gzip_NewReader r with
  | inl err => panic ("failed to create gzip reader: " ++ err)
  | inr gzipReader => ret (gzip_Reader gzipReader)
  end.

Definition createZstdWriter (w : Buffer) : Method io_Writer :=
  m <- self ;;
  let level := zstdLevel (level m) in
  match zstd_NewWriter level with
  | inl err => panic ("failed to create zstd writer: " ++ err)
  | inr zstdWriter => ret {| impl := zstdWriteCloser zstdWriter; sink := w |}
  end.

Definition createZstdReader (r : bytes) : Method io_Reader :=
  match zstd_NewReader r with
  | inl err => panic ("failed to create zstd reader: " ++ err)
  | inr zstdReader => ret (zstdReadCloser zstdReader)
  end.

Definition createS2Writer (w : Buffer) : Method io_Writer :=
  ret {| impl := s2_Writer s2_NewWriter; sink := w |}.

Definition createS2Reader (r : bytes) : Method io_Reader :=
  ret (s2_Reader (s2_NewReader r)).

Definition createSnappyWriter (w : Buffer) : Method io_Writer :=
  ret {| impl := snappy_Writer snappy_NewBufferedWriter; sink := w |}.

Definition createSnappyReader (r : bytes) : Method io_Reader :=
  ret (snappy_Reader (snappy_NewReader r)).

Definition createZlibWriter (w : Buffer) : Method io_Writer :=
  m <- self ;;
  let level := deflateLevel zlib_levels (level m) in
  match zlib_NewWriterLevel level with
  | inl err => panic ("failed to create zlib writer: " ++ err)
  | inr zlibWriter => ret {| impl := zlibWriteCloser zlibWriter; sink := w |}
  end.

Definition createZlibReader (r : bytes) : Method io_Reader :=
  match zlib_NewReader r with
  | inl err => panic ("failed to create zlib reader: " ++ err)
  | inr zlibReader => ret (zlibReadCloser zlibReader)
  end.

Definition createFlateWriter (w : Buffer) : Method io_Writer :=
  m <- self ;;
  let level := deflateLevel flate_levels (level m) in
  match flate_NewWriter level with
  | inl err => panic ("failed to create flate writer: " ++ err)
  | inr flateWriter => ret {| impl := flateWriteCloser flateWriter; sink := w |}
  end.

Definition createFlateReader (r : bytes) : Method io_Reader :=
  let flateReader := flate_NewReader r in
  ret (flateReadCloser flateReader).

(** ** The two entry points *)

Definition Writer (w : Buffer) : Method io_Writer :=
  m <- self ;;
  if algorithm m =? Gzip then createGzipWriter w
  else if algorithm m =? Zstd then createZstdWriter w
  else if algorithm m =? S2 then createS2Writer w
  else if algorithm m =? Snappy then createSnappyWriter w
  else if algorithm m =? Zlib then createZlibWriter w
  else if algorithm m =? Flate then createFlateWriter w
  else panic "unsupported compression algorithm".

Definition Reader (r : bytes) : Method io_Reader :=
  m <- self ;;
  if algorithm m =? Gzip then createGzipReader r
  else if algorithm m =? Zstd then createZstdReader r
  else if algorithm m =? S2 then createS2Reader r
  else if algorithm m =? Snappy then createSnappyReader r
  else if algorithm m =? Zlib then createZlibReader r
  else if algorithm m =? Flate then createFlateReader r
  else panic "unsupported compression algorithm".

(** ** A session, as the package's tests drive one

    [compress]: wrap an empty buffer, write the parts in order, close, and
    take the buffer's bytes.  [decompress]: wrap the bytes and read to the
    end. *)

Definition WriteParts (w : io_Writer) (parts : list bytes) : io_Writer :=
  fold_left Write parts w.

Definition compress (parts : list bytes) : Method bytes :=
  compressWriter <- Writer [] ;;
  ret (Close (WriteParts compressWriter parts)).

Definition decompress (compressedData : bytes) : Method bytes :=
  decompressReader <- Reader compressedData ;;
  lift (ReadAll decompressReader).

Definition roundTrip (parts : list bytes) : Method bytes :=
  compressedData <- compress parts ;;
  decompress compressedData.

(** The streaming loop of [TestLargeData]: starting at index [i], write
    [testData[i:end]] with [end] the smaller of [i + chunkSize] and the
    length, and advance by [chunkSize], while [i] is below the length.  Indices
    and sizes are natural numbers (the test's are non-negative and far from
    the range of [int]).  The loop is run with a step budget; [None] means
    the budget ran out before the loop condition failed. *)
Fixpoint writeInChunks (fuel : nat) (compressWriter : io_Writer)
    (testData : bytes) (chunkSize i : nat) : option io_Writer :=
  if (i <? List.length testData)%nat then
    match fuel with
    | O => None
    | S fuel' =>
        let end_ := (if (List.length testData <? i + chunkSize)%nat
                     then List.length testData else i + chunkSize)%nat in
        writeInChunks fuel'
          (Write compressWriter (firstn (end_ - i) (skipn i testData)))
          testData chunkSize (i + chunkSize)
    end
  else Some compressWriter.

(** ** The enumerated selectors *)

Definition supported (a : Algorithm) : Prop :=
  a = Gzip \/ a = Zstd \/ a = S2 \/ a = Snappy \/ a = Zlib \/ a = Flate.

Definition enumerated (lv : Level) : Prop :=
  lv = Fastest \/ lv = Default \/ lv = Better \/ lv = Best.

(** ** What the codec packages promise *)

(** Everything an encoder pushes into its sink over a session: the output of
    each [Write] in order, then the output of [Close]. *)
Fixpoint emitted (s : Stream) (e : enc s) (parts : list bytes) : bytes :=
  match parts with
  | [] => stream_Close s e
  | p :: rest =>
      let (e', out) := stream_Write s e p in
      (out ++ emitted s e' rest)%list
  end.

(** A codec round-trips from encoder [e0] when, for every sequence of writes,
    a decoder opened on the emitted bytes reads back the written bytes. *)
Definition round_trips (s : Stream) (open : bytes -> string + dec s)
    (e0 : enc s) : Prop :=
  forall parts : list bytes,
    exists d, open (emitted s e0 parts) = inr d /\
              stream_ReadAll s d = inr (List.concat parts).


(** The levels a deflate-family constructor documents as valid. *)
Definition valid_deflate_level (c : DeflateLevels) (l : Z) : Prop :=
  l = DefaultCompression c \/ l = NoCompression c \/
  BestSpeed c <= l <= BestCompression c.

Definition deflate_scale (c : DeflateLevels) : Prop :=
  NoCompression c = 0 /\ BestSpeed c < BestCompression c.

Definition zstd_speed (l : Z) : Prop :=
  l = SpeedFastest zstd_levels \/ l = SpeedDefault zstd_levels \/
  l = SpeedBetterCompression zstd_levels \/
  l = SpeedBestCompression zstd_levels.

Definition accepts {W : Type} (make : Z -> string + W) (l : Z) : Prop :=
  exists e, make l = inr e.

Definition total {R : Type} (open : bytes -> R) : bytes -> string + R :=
  fun src => inr (open src).

(** The contract of the six packages: constructors accept the documented
    levels, and what an encoder writes a decoder of the same package reads
    back. *)
Record Conforming : Prop := {
  gzip_scale : deflate_scale gzip_levels;
  gzip_accepts : forall l,
    valid_deflate_level gzip_levels l -> accepts gzip_NewWriterLevel l;
  gzip_round_trips : forall l e,
    gzip_NewWriterLevel l = inr e -> round_trips gzip gzip_NewReader e;

  zstd_accepts : forall l, zstd_speed l -> accepts zstd_NewWriter l;
  zstd_round_trips : forall l e,
    zstd_NewWriter l = inr e -> round_trips zstd zstd_NewReader e;

  s2_round_trips : round_trips s2 (total s2_NewReader) s2_NewWriter;

  snappy_round_trips :
    round_trips snappy (total snappy_NewReader) snappy_NewBufferedWriter;

  zlib_scale : deflate_scale zlib_levels;
  zlib_accepts : forall l,
    valid_deflate_level zlib_levels l -> accepts zlib_NewWriterLevel l;
  zlib_round_trips : forall l e,
    zlib_NewWriterLevel l = inr e -> round_trips zlib zlib_NewReader e;

  flate_scale : deflate_scale flate_levels;
  flate_accepts : forall l,
    valid_deflate_level flate_levels l -> accepts flate_NewWriter l;
  flate_round_trips : forall l e,
    flate_NewWriter l = inr e -> round_trips flate (total flate_NewReader) e
}.

End Adapter.

Arguments Conforming lib : clear implicits.

(** ** A reference instance of the codec packages

    A small executable library with the shape of the real one: every codec
    stores its input behind a format header, the deflate family accepts the
    levels -2..9, zstd the four speed tiers.  gzip, zlib and zstd check the
    header when the reader is made; flate, s2 and snappy report a bad stream
    on the first read.  It is used to run the adapter on concrete inputs. *)

Module Reference.

(** The header is written with the first output, or on close. *)
Definition framed (magic : bytes) : Stream := {|
  enc := bool;
  dec := string + bytes;
  stream_Write := fun started p =>
    (true, ((if started then [] else magic) ++ p)%list);
  stream_Close := fun started => if started then [] else magic;
  stream_ReadAll := fun d => d
|}.

Fixpoint strip (magic src : bytes) : option bytes :=
  match magic with
  | [] => Some src
  | b :: magic' =>
      match src with
      | [] => None
      | c :: src' => if Byte.eqb b c then strip magic' src' else None
      end
  end.

(** A reader that parses the header when it is made. *)
Definition open_eager (magic src : bytes) : string + (string + bytes) :=
  match strip magic src with
  | Some body => inr (inr body)
  | None => inl "invalid header"%string
  end.

(** A reader that is made unconditionally and fails on the first read. *)
Definition open_lazy (magic src : bytes) : string + bytes :=
  match strip magic src with
  | Some body => inr body
  | None => inl "corrupt input"%string
  end.

Definition make_levelled (lo hi l : Z) : string + bool :=
  if (lo <=? l) && (l <=? hi) then inr false
  else inl "invalid compression level"%string.

Definition deflate_levels : DeflateLevels := {|
  NoCompression := 0;
  BestSpeed := 1;
  BestCompression := 9;
  DefaultCompression := -1
|}.

Definition gzip_magic : bytes := [x1f; x8b].
Definition zstd_magic : bytes := [x28; xb5; x2f; xfd].
Definition s2_magic : bytes := [xff; x06; x00; x00; x53; x32].
Definition snappy_magic : bytes := [xff; x06; x00; x00; x73; x4e].
Definition zlib_magic : bytes := [x78; x9c].

#[export] Instance lib : Library := {|
  gzip := framed gzip_magic;
  gzip_levels := deflate_levels;
  gzip_NewWriterLevel := make_levelled (-3) 9;
  gzip_NewReader := open_eager gzip_magic;

  zstd := framed zstd_magic;
  zstd_levels := {| SpeedFastest := 1; SpeedDefault := 2;
                    SpeedBetterCompression := 3; SpeedBestCompression := 4 |};
  zstd_NewWriter := make_levelled 1 4;
  zstd_NewReader := open_eager zstd_magic;

  s2 := framed s2_magic;
  s2_NewWriter := false;
  s2_NewReader := open_lazy s2_magic;

  snappy := framed snappy_magic;
  snappy_NewBufferedWriter := false;
  snappy_NewReader := open_lazy snappy_magic;

  zlib := framed zlib_magic;
  zlib_levels := deflate_levels;
  zlib_NewWriterLevel := make_levelled (-2) 9;
  zlib_NewReader := open_eager zlib_magic;

  flate := framed [];
  flate_levels := deflate_levels;
  flate_NewWriter := make_levelled (-2) 9;
  flate_NewReader := open_lazy []
|}.

End Reference.

(** ** An instance whose gzip and zlib check a trailer

    gzip and zlib parse the header when the reader is made and check the
    trailer only when the stream has been read to its end.  This instance has
    that shape: the reader constructor looks at the header alone, and the
    end mark that closes a stream is checked by the read.  The other four
    codecs are those of [Reference]. *)

Module Checked.

Definition end_mark : byte := xff.

Definition sealed (magic : bytes) : Stream := {|
  enc := bool;
  dec := bytes;
  stream_Write := fun started p =>
    (true, ((if started then [] else magic) ++ p)%list);
  stream_Close := fun started =>
    ((if started then [] else magic) ++ [end_mark])%list;
  stream_ReadAll := fun body =>
    match rev body with
    | b :: payload =>
        if Byte.eqb b end_mark then inr (rev payload)
        else inl "unexpected EOF"%string
    | [] => inl "unexpected EOF"%string
    end
|}.

(** The reader is made when the header parses; the body is not looked at. *)
Definition open_header (magic src : bytes) : string + bytes :=
  match Reference.strip magic src with
  | Some body => inr body
  | None => inl "invalid header"%string
  end.

#[export] Instance lib : Library := {|
  gzip := sealed Reference.gzip_magic;
  gzip_levels := Reference.deflate_levels;
  gzip_NewWriterLevel := Reference.make_levelled (-3) 9;
  gzip_NewReader := open_header Reference.gzip_magic;

  zstd := Reference.framed Reference.zstd_magic;
  zstd_levels := {| SpeedFastest := 1; SpeedDefault := 2;
                    SpeedBetterCompression := 3; SpeedBestCompression := 4 |};
  zstd_NewWriter := Reference.make_levelled 1 4;
  zstd_NewReader := Reference.open_eager Reference.zstd_magic;

  s2 := Reference.framed Reference.s2_magic;
  s2_NewWriter := false;
  s2_NewReader := Reference.open_lazy Reference.s2_magic;

  snappy := Reference.framed Reference.snappy_magic;
  snappy_NewBufferedWriter := false;
  snappy_NewReader := Reference.open_lazy Reference.snappy_magic;

  zlib := sealed Reference.zlib_magic;
  zlib_levels := Reference.deflate_levels;
  zlib_NewWriterLevel := Reference.make_levelled (-2) 9;
  zlib_NewReader := open_header Reference.zlib_magic;

  flate := Reference.framed [];
  flate_levels := Reference.deflate_levels;
  flate_NewWriter := Reference.make_levelled (-2) 9;
  flate_NewReader := Reference.open_lazy []
|}.

End Checked.

(** * Properties of the adapter *)

Section Properties.

Context {lib : Library}.

(** ** Construction *)

Lemma options_keep_algorithm (lvs : list Level) (m0 : Middleware) :
  algorithm (fold_left (fun m opt => opt m) (map WithLevel lvs) m0)
  = algorithm m0.
Proof.
  revert m0. induction lvs as [|lv lvs IH]; intros m0; simpl.
  - reflexivity.
  - rewrite IH. reflexivity.
Qed.

Lemma last_cons_default {A : Type} (l : list A) (x d d' : A) :
  last (x :: l) d = last (x :: l) d'.
Proof.
  revert x. induction l as [|y l IH]; intros x.
  - reflexivity.
  - change (last (y :: l) d = last (y :: l) d'). apply IH.
Qed.

Lemma options_last_level (lvs : list Level) (m0 : Middleware) :
  level (fold_left (fun m opt => opt m) (map WithLevel lvs) m0)
  = last lvs (level m0).
Proof.
  revert m0. induction lvs as [|lv lvs IH]; intros m0.
  - reflexivity.
  - change (level (fold_left (fun m opt => opt m) (map WithLevel lvs)
                     (WithLevel lv m0)) = last (lv :: lvs) (level m0)).
    rewrite IH. simpl level.
    destruct lvs as [|l lvs]; [reflexivity|].
    change (last (l :: lvs) lv = last (l :: lvs) (level m0)).
    apply last_cons_default.
Qed.

(** ** The wrap calls leave the adapter alone *)

Ltac run_method :=
  unfold bind, self, ret, panic, lift; simpl.

Lemma Writer_frame (w : Buffer) (m : Middleware) : snd (Writer w m) = m.
Proof.
  unfold Writer, createGzipWriter, createZstdWriter, createS2Writer,
    createSnappyWriter, createZlibWriter, createFlateWriter.
  run_method.
  repeat match goal with
         | |- context [if ?b then _ else _] => destruct b
         | |- context [match ?x with inl _ => _ | inr _ => _ end] =>
             destruct x
         end; reflexivity.
Qed.

Lemma Reader_frame (r : bytes) (m : Middleware) : snd (Reader r m) = m.
Proof.
  unfold Reader, createGzipReader, createZstdReader, createS2Reader,
    createSnappyReader, createZlibReader, createFlateReader.
  run_method.
  repeat match goal with
         | |- context [if ?b then _ else _] => destruct b
         | |- context [match ?x with inl _ => _ | inr _ => _ end] =>
             destruct x
         end; reflexivity.
Qed.

(** ** Dispatch on an unsupported selector *)

Lemma unsupported_tests (a : Algorithm) :
  ~ supported a ->
  (a =? Gzip) = false /\ (a =? Zstd) = false /\ (a =? S2) = false /\
  (a =? Snappy) = false /\ (a =? Zlib) = false /\ (a =? Flate) = false.
Proof.
  unfold supported. intros H.
  repeat split; apply Z.eqb_neq; intros E; apply H; tauto.
Qed.

(** ** Level translation *)

Lemma deflateLevel_valid (c : DeflateLevels) (lv : Level) :
  deflate_scale c -> valid_deflate_level c (deflateLevel c lv).
Proof.
  intros [H0 Hlt]. unfold valid_deflate_level, deflateLevel.
  destruct (lv =? Fastest); [right; right; lia|].
  destruct (lv =? Default); [left; reflexivity|].
  destruct (lv =? Better); [right; right; lia|].
  destruct (lv =? Best); [right; right; lia|].
  right; left. symmetry. exact H0.
Qed.


Lemma zstdLevel_speed (lv : Level) :
  enumerated lv -> zstd_speed (zstdLevel lv).
Proof.
  unfold enumerated, zstd_speed, zstdLevel.
  intros [-> | [-> | [-> | ->]]]; simpl; tauto.
Qed.

(** ** The sink after a session *)

Ltac session_sink :=
  let parts := fresh "parts" in
  let IH := fresh "IH" in
  intros parts; induction parts as [|? parts IH]; intros ? ?;
  [ reflexivity
  | unfold WriteParts in *; simpl; unfold Write at 2; simpl;
    match goal with
    | |- context [stream_Write ?s ?e ?p] => destruct (stream_Write s e p)
    end;
    rewrite IH; unfold Buffer_Write; rewrite app_assoc; reflexivity ].

Lemma gzip_session_sink : forall parts e b,
  Close (WriteParts {| impl := gzipWriteCloser e; sink := b |} parts)
  = (b ++ emitted gzip e parts)%list.
Proof. session_sink. Qed.

Lemma zstd_session_sink : forall parts e b,
  Close (WriteParts {| impl := zstdWriteCloser e; sink := b |} parts)
  = (b ++ emitted zstd e parts)%list.
Proof. session_sink. Qed.

Lemma s2_session_sink : forall parts e b,
  Close (WriteParts {| impl := s2_Writer e; sink := b |} parts)
  = (b ++ emitted s2 e parts)%list.
Proof. session_sink. Qed.

Lemma snappy_session_sink : forall parts e b,
  Close (WriteParts {| impl := snappy_Writer e; sink := b |} parts)
  = (b ++ emitted snappy e parts)%list.
Proof. session_sink. Qed.

Lemma zlib_session_sink : forall parts e b,
  Close (WriteParts {| impl := zlibWriteCloser e; sink := b |} parts)
  = (b ++ emitted zlib e parts)%list.
Proof. session_sink. Qed.

Lemma flate_session_sink : forall parts e b,
  Close (WriteParts {| impl := flateWriteCloser e; sink := b |} parts)
  = (b ++ emitted flate e parts)%list.
Proof. session_sink. Qed.

(** ** Round trip through one session *)

Section RoundTrip.

Hypothesis conforming : Conforming lib.

Ltac run_session :=
  unfold roundTrip, compress, decompress, Writer, Reader,
    createGzipWriter, createGzipReader, createZstdWriter, createZstdReader,
    createS2Writer, createS2Reader, createSnappyWriter, createSnappyReader,
    createZlibWriter, createZlibReader, createFlateWriter, createFlateReader,
    total in *;
  run_method.

Ltac read_back Hopen Hread :=
  simpl; first [rewrite Hopen | injection Hopen as <-]; simpl;
  rewrite Hread; reflexivity.

(** The level restriction only concerns zstd: the deflate family turns any
    other level into native level 0, and s2 and snappy never look at it. *)
Lemma roundTrip_ok (m : Middleware) (parts : list bytes) :
  supported (algorithm m) ->
  (algorithm m = Zstd -> enumerated (level m)) ->
  roundTrip parts m = (Ok (List.concat parts), m).
Proof.
  destruct m as [a lv]; simpl. intros Hs Hl.
  destruct Hs as [-> | [-> | [-> | [-> | [-> | ->]]]]].
  - destruct (gzip_accepts conforming
                (deflateLevel_valid lv (gzip_scale conforming))) as [e He].
    destruct (gzip_round_trips conforming _ He parts) as [d [Hd Hr]].
    run_session. rewrite He. simpl. rewrite gzip_session_sink.
    read_back Hd Hr.
  - destruct (zstd_accepts conforming (zstdLevel_speed (Hl eq_refl)))
      as [e He].
    destruct (zstd_round_trips conforming _ He parts) as [d [Hd Hr]].
    run_session. rewrite He. simpl. rewrite zstd_session_sink.
    read_back Hd Hr.
  - destruct (s2_round_trips conforming parts) as [d [Hd Hr]].
    run_session. rewrite s2_session_sink.
    read_back Hd Hr.
  - destruct (snappy_round_trips conforming parts) as [d [Hd Hr]].
    run_session. rewrite snappy_session_sink.
    read_back Hd Hr.
  - destruct (zlib_accepts conforming
                (deflateLevel_valid lv (zlib_scale conforming))) as [e He].
    destruct (zlib_round_trips conforming _ He parts) as [d [Hd Hr]].
    run_session. rewrite He. simpl. rewrite zlib_session_sink.
    read_back Hd Hr.
  - destruct (flate_accepts conforming
                (deflateLevel_valid lv (flate_scale conforming))) as [e He].
    destruct (flate_round_trips conforming _ He parts) as [d [Hd Hr]].
    run_session. rewrite He. simpl. rewrite flate_session_sink.
    read_back Hd Hr.
Qed.

Lemma roundTrip_single (m : Middleware) (data : bytes) :
  supported (algorithm m) ->
  enumerated (level m) ->
  roundTrip [data] m = (Ok data, m).
Proof.
  intros Hs Hl.
  pose proof (roundTrip_ok m [data] Hs (fun _ => Hl)) as H.
  simpl in H. rewrite app_nil_r in H. exact H.
Qed.

End RoundTrip.

(** A successful round trip, step by step: the writer was made, the reader
    was made on the closed sink, and reading to the end gave the result. *)
Lemma roundTrip_steps (m : Middleware) (parts : list bytes) (out : bytes) :
  roundTrip parts m = (Ok out, m) ->
  exists wr rd,
    Writer [] m = (Ok wr, m) /\
    Reader (Close (WriteParts wr parts)) m = (Ok rd, m) /\
    ReadAll rd = Ok out.
Proof.
  unfold roundTrip, compress, decompress, bind, ret, lift.
  pose proof (Writer_frame [] m) as Fw.
  destruct (Writer [] m) as [[wr | e | s] m1] eqn:Ew; simpl in Fw; subst m1;
    try discriminate.
  pose proof (Reader_frame (Close (WriteParts wr parts)) m) as Fr.
  destruct (Reader (Close (WriteParts wr parts)) m) as [[rd | e | s] m2]
    eqn:Er; simpl in Fr; subst m2; try discriminate.
  intros H. exists wr, rd. repeat split; congruence.
Qed.

(** ** The claims *)

(** C1.  For each of the six algorithms and every byte sequence, writing the
    sequence through the writer made by [Writer] on a sink, closing it, and
    reading the sink through the reader made by [Reader] gives back exactly
    the sequence; a session with no write at all reads back as zero bytes.
    The codec packages are assumed to honour their contract. *)
Theorem round_trip_all_algorithms
    (conforming : Conforming lib) (m : Middleware) (data : bytes) :
  supported (algorithm m) ->
  enumerated (level m) ->
  (exists wr rd,
      Writer [] m = (Ok wr, m) /\
      Reader (Close (Write wr data)) m = (Ok rd, m) /\
      ReadAll rd = Ok data) /\
  (exists wr rd,
      Writer [] m = (Ok wr, m) /\
      Reader (Close wr) m = (Ok rd, m) /\
      ReadAll rd = Ok []).
Proof.
  intros Hs Hl. split.
  - pose proof (roundTrip_ok conforming m [data] Hs (fun _ => Hl)) as H.
    simpl in H. rewrite app_nil_r in H.
    exact (roundTrip_steps [data] H).
  - pose proof (roundTrip_ok conforming m [] Hs (fun _ => Hl)) as H.
    exact (roundTrip_steps [] H).
Qed.

(** C2.  An algorithm value outside the six is accepted by [New] unchanged
    (construction is total and validates nothing), and every later [Writer]
    or [Reader] call on that adapter panics with "unsupported compression
    algorithm": no codec is chosen in its place. *)
Theorem unsupported_algorithm_panics
    (alg : Algorithm) (lvs : list Level) (w : Buffer) (r : bytes) :
  ~ supported alg ->
  algorithm (New alg (map WithLevel lvs)) = alg /\
  Writer w (New alg (map WithLevel lvs))
  = (Panicked "unsupported compression algorithm",
     New alg (map WithLevel lvs)) /\
  Reader r (New alg (map WithLevel lvs))
  = (Panicked "unsupported compression algorithm",
     New alg (map WithLevel lvs)).
Proof.
  intros Hu.
  assert (Ha : algorithm (New alg (map WithLevel lvs)) = alg)
    by apply options_keep_algorithm.
  destruct (unsupported_tests Hu) as (E0 & E1 & E2 & E3 & E4 & E5).
  split; [exact Ha|].
  unfold Writer, Reader. run_method. rewrite Ha.
  rewrite E0, E1, E2, E3, E4, E5. split; reflexivity.
Qed.



(** C4.  For gzip, zlib and raw deflate the level switch sends Fastest to the
    package's BestSpeed, Default to its DefaultCompression, Best to its
    BestCompression and Better to BestCompression - 1, and that native level
    is the one handed to the package's writer constructor. *)
Theorem deflate_level_translation (w : Buffer) (m : Middleware) :
  (forall c : DeflateLevels,
      deflateLevel c Fastest = BestSpeed c /\
      deflateLevel c Default = DefaultCompression c /\
      deflateLevel c Better = BestCompression c - 1 /\
      deflateLevel c Best = BestCompression c) /\
  createGzipWriter w m
  = (match gzip_NewWriterLevel (deflateLevel gzip_levels (level m)) with
     | inl err => Panicked ("failed to create gzip writer: " ++ err)
     | inr e => Ok {| impl := gzipWriteCloser e; sink := w |}
     end, m) /\
  createZlibWriter w m
  = (match zlib_NewWriterLevel (deflateLevel zlib_levels (level m)) with
     | inl err => Panicked ("failed to create zlib writer: " ++ err)
     | inr e => Ok {| impl := zlibWriteCloser e; sink := w |}
     end, m) /\
  createFlateWriter w m
  = (match flate_NewWriter (deflateLevel flate_levels (level m)) with
     | inl err => Panicked ("failed to create flate writer: " ++ err)
     | inr e => Ok {| impl := flateWriteCloser e; sink := w |}
     end, m).
Proof.
  split; [intros c; repeat split|].
  unfold createGzipWriter, createZlibWriter, createFlateWriter. run_method.
  repeat split;
    match goal with
    | |- context [match ?x with inl _ => _ | inr _ => _ end] => destruct x
    end; reflexivity.
Qed.

(** C5.  For s2 and snappy the level is never consulted: adapters that differ
    only in their level make the same writer on the same sink, and the
    compressed bytes of any sequence of writes are the same. *)
Theorem s2_snappy_ignore_level
    (a : Algorithm) (l1 l2 : Level) (w : Buffer) (parts : list bytes) :
  a = S2 \/ a = Snappy ->
  fst (Writer w (New a [WithLevel l1])) = fst (Writer w (New a [WithLevel l2]))
  /\ fst (compress parts (New a [WithLevel l1]))
     = fst (compress parts (New a [WithLevel l2])).
Proof.
  intros [-> | ->]; split; reflexivity.
Qed.

(** C6.  [New] with no option gives level Default; [New] with [WithLevel L]
    gives level exactly L (with several, the last one); the algorithm is the
    one passed in; and no [Writer] or [Reader] call changes either field. *)
Theorem New_fixes_algorithm_and_level (alg : Algorithm) (lv : Level) :
  New alg [] = {| algorithm := alg; level := Default |} /\
  New alg [WithLevel lv] = {| algorithm := alg; level := lv |} /\
  (forall lvs, algorithm (New alg (map WithLevel lvs)) = alg /\
               level (New alg (map WithLevel lvs)) = last lvs Default) /\
  (forall m w r, snd (Writer w m) = m /\ snd (Reader r m) = m).
Proof.
  repeat split.
  - apply options_keep_algorithm.
  - apply (options_last_level lvs {| algorithm := alg; level := Default |}).
  - apply Writer_frame.
  - apply Reader_frame.
Qed.

(** C7.  For every algorithm and every way of cutting a byte sequence into
    chunks: the writer made by [Writer], given the whole sequence in one
    write and closed, and the same writer given the chunks in order and
    closed, both leave compressed bytes in the sink on which [Reader] makes a
    reader that reads back exactly the sequence. *)
Theorem chunked_write_equivalence
    (conforming : Conforming lib) (m : Middleware)
    (data : bytes) (chunks : list bytes) :
  supported (algorithm m) ->
  enumerated (level m) ->
  List.concat chunks = data ->
  exists wr rd1 rd2,
    Writer [] m = (Ok wr, m) /\
    Reader (Close (Write wr data)) m = (Ok rd1, m) /\
    ReadAll rd1 = Ok data /\
    Reader (Close (fold_left Write chunks wr)) m = (Ok rd2, m) /\
    ReadAll rd2 = Ok data.
Proof.
  intros Hs Hl <-.
  destruct (roundTrip_steps [List.concat chunks]
              (roundTrip_single conforming m (List.concat chunks) Hs Hl))
    as (wr & rd1 & Hw & Hr1 & Ha1).
  destruct (roundTrip_steps chunks
              (roundTrip_ok conforming m chunks Hs (fun _ => Hl)))
    as (wr' & rd2 & Hw' & Hr2 & Ha2).
  assert (wr' = wr) by congruence. subst wr'.
  exists wr, rd1, rd2. repeat split; assumption.
Qed.

(** C8.  No wrap call changes the adapter, and two sessions run one after the
    other on the same adapter, each with its own writer on its own empty
    sink, each read back their own data.  The compressed bytes of the second
    session are the same whatever the first session wrote: nothing of the
    first reaches the second. *)
Theorem sessions_independent
    (conforming : Conforming lib) (m : Middleware) (data2 : bytes) :
  supported (algorithm m) ->
  enumerated (level m) ->
  (forall w, snd (Writer w m) = m) /\
  (forall r, snd (Reader r m) = m) /\
  exists compressed2,
    forall data1,
      (w1 <- Writer [] ;;
       r1 <- Reader (Close (Write w1 data1)) ;;
       out1 <- lift (ReadAll r1) ;;
       w2 <- Writer [] ;;
       r2 <- Reader (Close (Write w2 data2)) ;;
       out2 <- lift (ReadAll r2) ;;
       ret (out1, out2, Close (Write w2 data2))) m
      = (Ok (data1, data2, compressed2), m).
Proof.
  intros Hs Hl.
  split; [intros w; apply Writer_frame|].
  split; [intros r; apply Reader_frame|].
  destruct (roundTrip_steps [data2]
              (roundTrip_single conforming m data2 Hs Hl))
    as (wr & rd2 & Hw & Hr2 & Ha2).
  exists (Close (Write wr data2)). intros data1.
  destruct (roundTrip_steps [data1]
              (roundTrip_single conforming m data1 Hs Hl))
    as (wr' & rd1 & Hw' & Hr1 & Ha1).
  assert (wr' = wr) by congruence. subst wr'.
  simpl in Hr1, Hr2.
  unfold bind, lift, ret.
  rewrite Hw, Hr1, Ha1, Hw, Hr2, Ha2. reflexivity.
Qed.

(** The writer [Writer] returns wraps the encoder its codec's constructor
    made at the translated level. *)
Lemma Writer_made_at_level (m : Middleware) (w : Buffer) (wr : io_Writer) :
  Writer w m = (Ok wr, m) ->
  (algorithm m = Gzip ->
   exists e, gzip_NewWriterLevel (deflateLevel gzip_levels (level m)) = inr e
             /\ impl wr = gzipWriteCloser e) /\
  (algorithm m = Zstd ->
   exists e, zstd_NewWriter (zstdLevel (level m)) = inr e
             /\ impl wr = zstdWriteCloser e) /\
  (algorithm m = Zlib ->
   exists e, zlib_NewWriterLevel (deflateLevel zlib_levels (level m)) = inr e
             /\ impl wr = zlibWriteCloser e) /\
  (algorithm m = Flate ->
   exists e, flate_NewWriter (deflateLevel flate_levels (level m)) = inr e
             /\ impl wr = flateWriteCloser e).
Proof.
  destruct m as [a lv]; simpl.
  unfold Writer, createGzipWriter, createZstdWriter, createS2Writer,
    createSnappyWriter, createZlibWriter, createFlateWriter.
  run_method. intros H.
  repeat split; intros ->; simpl in H;
    match type of H with
    | context [match ?x with inl _ => _ | inr _ => _ end] =>
        destruct x as [err | e]; [discriminate|]
    end;
    exists e; (split; [reflexivity|]); inversion H; reflexivity.
Qed.

(** C9.  For each of the four levels, every algorithm and every byte
    sequence: the adapter built with that level carries exactly that level,
    the writer it makes wraps the encoder constructed at the level's native
    translation, and what that writer leaves in the sink after one write and
    the close reads back through the adapter's reader as exactly the
    sequence. *)
Theorem round_trip_every_level
    (conforming : Conforming lib) (a : Algorithm) (lv : Level) (data : bytes) :
  supported a ->
  enumerated lv ->
  New a [WithLevel lv] = {| algorithm := a; level := lv |} /\
  exists wr rd,
    Writer [] (New a [WithLevel lv]) = (Ok wr, New a [WithLevel lv]) /\
    (a = Gzip ->
     exists e, gzip_NewWriterLevel (deflateLevel gzip_levels lv) = inr e
               /\ impl wr = gzipWriteCloser e) /\
    (a = Zstd ->
     exists e, zstd_NewWriter (zstdLevel lv) = inr e
               /\ impl wr = zstdWriteCloser e) /\
    (a = Zlib ->
     exists e, zlib_NewWriterLevel (deflateLevel zlib_levels lv) = inr e
               /\ impl wr = zlibWriteCloser e) /\
    (a = Flate ->
     exists e, flate_NewWriter (deflateLevel flate_levels lv) = inr e
               /\ impl wr = flateWriteCloser e) /\
    Reader (Close (Write wr data)) (New a [WithLevel lv])
    = (Ok rd, New a [WithLevel lv]) /\
    ReadAll rd = Ok data.
Proof.
  intros Hs Hl. split; [reflexivity|].
  destruct (roundTrip_steps [data]
              (roundTrip_single conforming (New a [WithLevel lv]) data Hs Hl))
    as (wr & rd & Hw & Hr & Ha).
  destruct (Writer_made_at_level [] Hw) as (G & Z & L & F).
  exists wr, rd. repeat split; assumption.
Qed.



(** * Further properties of the adapter *)

Ltac split_outcomes :=
  repeat match goal with
         | |- context [if ?b then _ else _] => destruct b
         | |- context [match ?x with inl _ => _ | inr _ => _ end] =>
             destruct x
         end.

Ltac unfold_factories :=
  unfold Writer, Reader,
    createGzipWriter, createGzipReader, createZstdWriter, createZstdReader,
    createS2Writer, createS2Reader, createSnappyWriter, createSnappyReader,
    createZlibWriter, createZlibReader, createFlateWriter, createFlateReader
    in *.

Lemma compress_frame (parts : list bytes) (m : Middleware) :
  snd (compress parts m) = m.
Proof.
  unfold compress, bind, ret.
  pose proof (Writer_frame [] m) as F.
  destruct (Writer [] m) as [[wr | e | s] m']; simpl in *; exact F.
Qed.

Lemma decompress_frame (src : bytes) (m : Middleware) :
  snd (decompress src m) = m.
Proof.
  unfold decompress, bind, lift.
  pose proof (Reader_frame src m) as F.
  destruct (Reader src m) as [[rd | e | s] m']; simpl in *; exact F.
Qed.

(** No reader factory looks at the level. *)
Lemma Reader_any_level (a : Algorithm) (l1 l2 : Level) (src : bytes) :
  fst (Reader src {| algorithm := a; level := l1 |})
  = fst (Reader src {| algorithm := a; level := l2 |}).
Proof.
  unfold_factories. run_method. split_outcomes; reflexivity.
Qed.

Lemma decompress_any_level (a : Algorithm) (l1 l2 : Level) (src : bytes) :
  fst (decompress src {| algorithm := a; level := l1 |})
  = fst (decompress src {| algorithm := a; level := l2 |}).
Proof.
  unfold decompress, bind, lift.
  pose proof (Reader_any_level a l1 l2 src) as E.
  destruct (Reader src {| algorithm := a; level := l1 |}) as [o1 m1].
  destruct (Reader src {| algorithm := a; level := l2 |}) as [o2 m2].
  simpl in E. subst o2. destruct o1; reflexivity.
Qed.

Lemma zstdLevel_other (lv : Level) :
  ~ enumerated lv -> zstdLevel lv = 0.
Proof.
  unfold enumerated, zstdLevel. intros H.
  destruct (Z.eqb_spec lv Fastest); [tauto|].
  destruct (Z.eqb_spec lv Default); [tauto|].
  destruct (Z.eqb_spec lv Better); [tauto|].
  destruct (Z.eqb_spec lv Best); [tauto|].
  reflexivity.
Qed.

(** X1.  With zstd selected and a level outside the four enumerated values,
    the encoder level handed to the zstd constructor is the zero value; when
    the constructor rejects it, [Writer] panics with the constructor's error
    in the message and a whole session stops there, before any reader is
    made. *)
Theorem zstd_unset_level_panics
    (m : Middleware) (w : Buffer) (parts : list bytes) (err : string) :
  algorithm m = Zstd ->
  ~ enumerated (level m) ->
  zstd_NewWriter 0 = inl err ->
  Writer w m = (Panicked ("failed to create zstd writer: " ++ err), m) /\
  roundTrip parts m
  = (Panicked ("failed to create zstd writer: " ++ err), m).
Proof.
  intros Ha Hl He. destruct m as [a lv]; simpl in *; subst a.
  unfold roundTrip, compress. unfold_factories. run_method.
  rewrite (zstdLevel_other Hl), He. split; reflexivity.
Qed.

(** X3.  Decoding does not depend on the level: the reader made for a source
    is the same at every level, and bytes compressed by an adapter at one
    level decompress to the written data through an adapter of the same
    algorithm at any other level. *)
Theorem decode_ignores_level
    (conforming : Conforming lib) (a : Algorithm) (l1 l2 : Level)
    (parts : list bytes) :
  supported a ->
  (a = Zstd -> enumerated l1) ->
  (forall src,
      fst (Reader src {| algorithm := a; level := l1 |})
      = fst (Reader src {| algorithm := a; level := l2 |})) /\
  exists compressedData,
    compress parts {| algorithm := a; level := l1 |}
    = (Ok compressedData, {| algorithm := a; level := l1 |}) /\
    decompress compressedData {| algorithm := a; level := l2 |}
    = (Ok (List.concat parts), {| algorithm := a; level := l2 |}).
Proof.
  intros Hs Hl. split; [intros src; apply Reader_any_level|].
  pose proof (roundTrip_ok conforming {| algorithm := a; level := l1 |}
                parts Hs Hl) as H.
  unfold roundTrip, bind in H.
  pose proof (compress_frame parts {| algorithm := a; level := l1 |}) as Fc.
  destruct (compress parts {| algorithm := a; level := l1 |})
    as [[c | e | s] m1]; simpl in Fc; subst m1; try discriminate.
  exists c. split; [reflexivity|].
  pose proof (decompress_any_level a l2 l1 c) as E.
  pose proof (decompress_frame c {| algorithm := a; level := l2 |}) as Fd.
  rewrite H in E.
  destruct (decompress c {| algorithm := a; level := l2 |}) as [o m2].
  simpl in *. subst. reflexivity.
Qed.

(** One outcome of a factory against the list of reasons for a panic. *)
Ltac panic_cases :=
  split;
  [ split;
    [ intros [? ?]; first [discriminate | solve [intuition eauto 10]]
    | let H := fresh in
      intros H; decompose [or and ex] H; clear H;
      first [discriminate | exfalso; tauto | eexists; reflexivity] ]
  | first [ left; eexists; reflexivity
          | right; eexists; split; reflexivity
          | right; eexists; reflexivity ] ].

(** X4.  [Writer] panics in exactly two situations: the algorithm is none of
    the six, or the constructor of the selected codec rejects the translated
    level.  s2 and snappy have no failing constructor.  In every other case a
    writer bound to the given sink is returned; an error value is never
    returned. *)
Theorem Writer_panics_exactly (m : Middleware) (w : Buffer) :
  ((exists msg, Writer w m = (Panicked msg, m)) <->
   (~ supported (algorithm m) \/
    (algorithm m = Gzip /\
     exists err, gzip_NewWriterLevel (deflateLevel gzip_levels (level m))
                 = inl err) \/
    (algorithm m = Zstd /\
     exists err, zstd_NewWriter (zstdLevel (level m)) = inl err) \/
    (algorithm m = Zlib /\
     exists err, zlib_NewWriterLevel (deflateLevel zlib_levels (level m))
                 = inl err) \/
    (algorithm m = Flate /\
     exists err, flate_NewWriter (deflateLevel flate_levels (level m))
                 = inl err))) /\
  ((exists msg, Writer w m = (Panicked msg, m)) \/
   (exists wr, Writer w m = (Ok wr, m) /\ sink wr = w)).
Proof.
  destruct m as [a lv]. unfold supported. unfold_factories. run_method.
  destruct (Z.eqb_spec a Gzip) as [-> | N0];
    [simpl; destruct (gzip_NewWriterLevel (deflateLevel gzip_levels lv))|].
  1-2: panic_cases.
  destruct (Z.eqb_spec a Zstd) as [-> | N1];
    [simpl; destruct (zstd_NewWriter (zstdLevel lv))|].
  1-2: panic_cases.
  destruct (Z.eqb_spec a S2) as [-> | N2]; [simpl; panic_cases|].
  destruct (Z.eqb_spec a Snappy) as [-> | N3]; [simpl; panic_cases|].
  destruct (Z.eqb_spec a Zlib) as [-> | N4];
    [simpl; destruct (zlib_NewWriterLevel (deflateLevel zlib_levels lv))|].
  1-2: panic_cases.
  destruct (Z.eqb_spec a Flate) as [-> | N5];
    [simpl; destruct (flate_NewWriter (deflateLevel flate_levels lv))|].
  1-2: panic_cases.
  panic_cases.
Qed.

(** X5.  [Reader] panics in exactly two situations: the algorithm is none of
    the six, or the selected codec is gzip, zstd or zlib and its reader
    constructor rejects the source.  In every other case a reader is
    returned; an error value is never returned. *)
Theorem Reader_panics_exactly (m : Middleware) (src : bytes) :
  ((exists msg, Reader src m = (Panicked msg, m)) <->
   (~ supported (algorithm m) \/
    (algorithm m = Gzip /\ exists err, gzip_NewReader src = inl err) \/
    (algorithm m = Zstd /\ exists err, zstd_NewReader src = inl err) \/
    (algorithm m = Zlib /\ exists err, zlib_NewReader src = inl err))) /\
  ((exists msg, Reader src m = (Panicked msg, m)) \/
   (exists rd, Reader src m = (Ok rd, m))).
Proof.
  destruct m as [a lv]. unfold supported. unfold_factories. run_method.
  destruct (Z.eqb_spec a Gzip) as [-> | N0];
    [simpl; destruct (gzip_NewReader src)|].
  1-2: panic_cases.
  destruct (Z.eqb_spec a Zstd) as [-> | N1];
    [simpl; destruct (zstd_NewReader src)|].
  1-2: panic_cases.
  destruct (Z.eqb_spec a S2) as [-> | N2]; [simpl; panic_cases|].
  destruct (Z.eqb_spec a Snappy) as [-> | N3]; [simpl; panic_cases|].
  destruct (Z.eqb_spec a Zlib) as [-> | N4];
    [simpl; destruct (zlib_NewReader src)|].
  1-2: panic_cases.
  destruct (Z.eqb_spec a Flate) as [-> | N5]; [simpl; panic_cases|].
  panic_cases.
Qed.

(** What a session leaves in the sink, for a writer of any of the six
    kinds: the sink as it was, then the bytes of a session on an empty
    sink. *)
Lemma session_appends (i : WriterImpl) (b : Buffer) (parts : list bytes) :
  Close (WriteParts {| impl := i; sink := b |} parts)
  = (b ++ Close (WriteParts {| impl := i; sink := [] |} parts))%list.
Proof.
  destruct i.
  - rewrite !gzip_session_sink. reflexivity.
  - rewrite !zstd_session_sink. reflexivity.
  - rewrite !s2_session_sink. reflexivity.
  - rewrite !snappy_session_sink. reflexivity.
  - rewrite !zlib_session_sink. reflexivity.
  - rewrite !flate_session_sink. reflexivity.
Qed.

Lemma Writer_any_sink (m : Middleware) (w : Buffer) (wr : io_Writer) :
  Writer w m = (Ok wr, m) ->
  sink wr = w /\ Writer [] m = (Ok {| impl := impl wr; sink := [] |}, m).
Proof.
  destruct m as [a lv]. unfold_factories. run_method.
  split_outcomes; intros H; inversion H; subst; split; reflexivity.
Qed.

(** X6.  A session only appends to its sink: whatever the sink held when the
    writer was made is still there, followed by exactly the bytes the same
    session produces on an empty sink. *)
Theorem session_appends_to_sink
    (m : Middleware) (w : Buffer) (parts : list bytes) (wr : io_Writer) :
  Writer w m = (Ok wr, m) ->
  exists compressedData,
    compress parts m = (Ok compressedData, m) /\
    Close (WriteParts wr parts) = (w ++ compressedData)%list.
Proof.
  intros H. destruct (Writer_any_sink w H) as [Hs H0].
  exists (Close (WriteParts {| impl := impl wr; sink := [] |} parts)).
  split.
  - unfold compress, bind, ret. rewrite H0. reflexivity.
  - destruct wr as [i b]; simpl in *; subst b. apply session_appends.
Qed.

(** X7.  The compressed bytes are the codec's own stream and nothing else:
    for each algorithm, [compress] returns exactly what the codec's encoder,
    made at the translated level, emits for the writes and the close.  The
    adapter adds no framing of its own. *)
Theorem compress_is_codec_stream (m : Middleware) (parts : list bytes) :
  (algorithm m = Gzip ->
   forall e, gzip_NewWriterLevel (deflateLevel gzip_levels (level m)) = inr e ->
   compress parts m = (Ok (emitted gzip e parts), m)) /\
  (algorithm m = Zstd ->
   forall e, zstd_NewWriter (zstdLevel (level m)) = inr e ->
   compress parts m = (Ok (emitted zstd e parts), m)) /\
  (algorithm m = S2 ->
   compress parts m = (Ok (emitted s2 s2_NewWriter parts), m)) /\
  (algorithm m = Snappy ->
   compress parts m
   = (Ok (emitted snappy snappy_NewBufferedWriter parts), m)) /\
  (algorithm m = Zlib ->
   forall e, zlib_NewWriterLevel (deflateLevel zlib_levels (level m)) = inr e ->
   compress parts m = (Ok (emitted zlib e parts), m)) /\
  (algorithm m = Flate ->
   forall e, flate_NewWriter (deflateLevel flate_levels (level m)) = inr e ->
   compress parts m = (Ok (emitted flate e parts), m)).
Proof.
  destruct m as [a lv]; simpl.
  repeat split; intros ->; try (intros e He);
    unfold compress; unfold_factories; run_method; try rewrite He; simpl.
  - rewrite gzip_session_sink. reflexivity.
  - rewrite zstd_session_sink. reflexivity.
  - rewrite s2_session_sink. reflexivity.
  - rewrite snappy_session_sink. reflexivity.
  - rewrite zlib_session_sink. reflexivity.
  - rewrite flate_session_sink. reflexivity.
Qed.

(** ** Streaming in chunks *)

Lemma slice_then_rest (data : bytes) (chunkSize i : nat) :
  (i < List.length data)%nat ->
  (firstn ((if (List.length data <? i + chunkSize)%nat
            then List.length data else i + chunkSize) - i) (skipn i data)
   ++ skipn (i + chunkSize) data)%list
  = skipn i data.
Proof.
  intros Hi. destruct (Nat.ltb_spec (List.length data) (i + chunkSize)).
  - rewrite (@skipn_all2 _ (i + chunkSize)%nat data) by lia.
    rewrite app_nil_r.
    apply firstn_all2. rewrite length_skipn. lia.
  - replace (i + chunkSize - i)%nat with chunkSize by lia.
    rewrite (Nat.add_comm i chunkSize), <- skipn_skipn.
    apply firstn_skipn.
Qed.

Lemma slice_length (data : bytes) (chunkSize i : nat) :
  (0 < chunkSize)%nat ->
  (i < List.length data)%nat ->
  (0 < List.length
         (firstn ((if (List.length data <? i + chunkSize)%nat
                   then List.length data else i + chunkSize) - i)
            (skipn i data)) <= chunkSize)%nat.
Proof.
  intros Hc Hi. rewrite length_firstn, length_skipn.
  destruct (Nat.ltb_spec (List.length data) (i + chunkSize)); lia.
Qed.

(** With a positive chunk size the loop ends within as many steps as bytes
    remain, and what it wrote is a cut of the remaining data. *)
Lemma writeInChunks_parts (data : bytes) (chunkSize : nat) :
  (0 < chunkSize)%nat ->
  forall (fuel i : nat),
    (List.length data - i <= fuel)%nat ->
    exists parts,
      (forall w, writeInChunks fuel w data chunkSize i
                 = Some (WriteParts w parts)) /\
      List.concat parts = skipn i data /\
      Forall (fun p => (0 < List.length p <= chunkSize)%nat) parts.
Proof.
  intros Hc. induction fuel as [|fuel IH]; intros i Hf.
  - exists []. repeat split.
    + intros w. simpl. destruct (Nat.ltb_spec i (List.length data));
        [lia | reflexivity].
    + simpl. symmetry. apply skipn_all2. lia.
    + constructor.
  - destruct (Nat.ltb_spec i (List.length data)) as [Hi | Hi].
    + destruct (IH (i + chunkSize)%nat) as (parts & Hw & Hcat & Hall);
        [lia|].
      exists (firstn ((if (List.length data <? i + chunkSize)%nat
                       then List.length data else i + chunkSize) - i)
                (skipn i data) :: parts).
      repeat split.
      * intros w. simpl.
        destruct (Nat.ltb_spec i (List.length data)); [|lia].
        rewrite Hw. reflexivity.
      * simpl. rewrite Hcat. apply slice_then_rest. exact Hi.
      * constructor; [apply slice_length; assumption | exact Hall].
    + exists []. repeat split.
      * intros w. simpl. destruct (Nat.ltb_spec i (List.length data));
          [lia | reflexivity].
      * simpl. symmetry. apply skipn_all2. lia.
      * constructor.
Qed.

(** X8.  The chunked-write loop of the large-data test, for any data and any
    positive chunk size: it finishes within [len(testData)] iterations, every
    write carries between one and [chunkSize] bytes, and the writes in order
    make up exactly the data. *)
Theorem chunk_loop_writes_all
    (w : io_Writer) (testData : bytes) (chunkSize : nat) :
  (0 < chunkSize)%nat ->
  exists parts,
    writeInChunks (List.length testData) w testData chunkSize 0
    = Some (WriteParts w parts) /\
    List.concat parts = testData /\
    Forall (fun p => (0 < List.length p <= chunkSize)%nat) parts.
Proof.
  intros Hc.
  destruct (@writeInChunks_parts testData chunkSize Hc
              (List.length testData) 0%nat)
    as (parts & Hw & Hcat & Hall); [lia|].
  exists parts. repeat split; [apply Hw | exact Hcat | exact Hall].
Qed.

(** X9.  The large-data test as a whole, for any of the six algorithms, any
    data and any positive chunk size: data streamed through the writer in
    chunks, then closed, reads back through the reader as exactly the data.
    The codec packages are assumed to honour their contract. *)
Theorem chunked_streaming_round_trip
    (conforming : Conforming lib) (m : Middleware)
    (testData : bytes) (chunkSize : nat) :
  supported (algorithm m) ->
  enumerated (level m) ->
  (0 < chunkSize)%nat ->
  exists compressWriter closing decompressReader,
    Writer [] m = (Ok compressWriter, m) /\
    writeInChunks (List.length testData) compressWriter testData chunkSize 0
    = Some closing /\
    Reader (Close closing) m = (Ok decompressReader, m) /\
    ReadAll decompressReader = Ok testData.
Proof.
  intros Hs Hl Hc.
  destruct (@writeInChunks_parts testData chunkSize Hc
              (List.length testData) 0%nat)
    as (parts & Hw & Hcat & _); [lia|].
  pose proof (roundTrip_ok conforming m parts Hs (fun _ => Hl)) as H.
  simpl in Hcat. rewrite Hcat in H.
  destruct (roundTrip_steps parts H) as (wr & rd & H1 & H2 & H3).
  exists wr, (WriteParts wr parts), rd.
  repeat split; [exact H1 | apply Hw | exact H2 | exact H3].
Qed.

End Properties.

(** * The reference library honours the contract *)

Lemma strip_app (magic body : bytes) :
  Reference.strip magic (magic ++ body) = Some body.
Proof.
  induction magic as [|b magic IH]; simpl.
  - reflexivity.
  - rewrite (Byte.byte_dec_lb eq_refl). exact IH.
Qed.

Lemma framed_emitted (magic : bytes) (parts : list bytes) (started : bool) :
  emitted (Reference.framed magic) started parts
  = ((if started then [] else magic) ++ List.concat parts)%list.
Proof.
  revert started. induction parts as [|p parts IH]; intros started; simpl.
  - rewrite app_nil_r. reflexivity.
  - rewrite IH. simpl. rewrite app_assoc. reflexivity.
Qed.

Lemma framed_eager_round_trips (magic : bytes) :
  round_trips (Reference.framed magic) (Reference.open_eager magic) false.
Proof.
  intros parts. exists (inr (List.concat parts)).
  rewrite framed_emitted. unfold Reference.open_eager.
  rewrite strip_app. split; reflexivity.
Qed.

Lemma framed_lazy_round_trips (magic : bytes) :
  round_trips (Reference.framed magic) (total (Reference.open_lazy magic))
    false.
Proof.
  intros parts. exists (inr (List.concat parts)).
  rewrite framed_emitted. unfold total, Reference.open_lazy.
  rewrite strip_app. split; reflexivity.
Qed.

Lemma make_levelled_fresh (lo hi l : Z) (e : bool) :
  Reference.make_levelled lo hi l = inr e -> e = false.
Proof.
  unfold Reference.make_levelled.
  destruct ((lo <=? l) && (l <=? hi)); congruence.
Qed.

Lemma make_levelled_accepts (lo hi l : Z) :
  lo <= l <= hi -> accepts (Reference.make_levelled lo hi) l.
Proof.
  intros [H1 H2]. exists false. unfold Reference.make_levelled.
  apply Z.leb_le in H1. apply Z.leb_le in H2. rewrite H1, H2. reflexivity.
Qed.

Lemma reference_deflate_range (l : Z) :
  valid_deflate_level Reference.deflate_levels l -> -2 <= l <= 9.
Proof.
  unfold valid_deflate_level. simpl. lia.
Qed.

Lemma reference_conforming : Conforming Reference.lib.
Proof.
  constructor; simpl.
  - split; simpl; lia.
  - intros l H. apply reference_deflate_range in H.
    apply make_levelled_accepts. lia.
  - intros l e H. apply make_levelled_fresh in H. subst e.
    apply framed_eager_round_trips.
  - unfold zstd_speed. simpl. intros l H.
    apply make_levelled_accepts. lia.
  - intros l e H. apply make_levelled_fresh in H. subst e.
    apply framed_eager_round_trips.
  - apply framed_lazy_round_trips.
  - apply framed_lazy_round_trips.
  - split; simpl; lia.
  - intros l H. apply reference_deflate_range in H.
    apply make_levelled_accepts. lia.
  - intros l e H. apply make_levelled_fresh in H. subst e.
    apply framed_eager_round_trips.
  - split; simpl; lia.
  - intros l H. apply reference_deflate_range in H.
    apply make_levelled_accepts. lia.
  - intros l e H. apply make_levelled_fresh in H. subst e.
    apply framed_lazy_round_trips.
Qed.

(** * The trailer-checking library honours the contract *)

Lemma sealed_emitted (magic : bytes) (parts : list bytes) (started : bool) :
  emitted (Checked.sealed magic) started parts
  = ((if started then [] else magic) ++ List.concat parts
     ++ [Checked.end_mark])%list.
Proof.
  revert started. induction parts as [|p parts IH]; intros started; simpl.
  - reflexivity.
  - rewrite IH. simpl. rewrite <- !app_assoc. reflexivity.
Qed.

Lemma sealed_round_trips (magic : bytes) :
  round_trips (Checked.sealed magic) (Checked.open_header magic) false.
Proof.
  intros parts. exists (List.concat parts ++ [Checked.end_mark])%list.
  rewrite sealed_emitted. unfold Checked.open_header.
  rewrite strip_app. split; [reflexivity|].
  simpl. rewrite rev_unit. simpl. rewrite rev_involutive. reflexivity.
Qed.

Lemma checked_conforming : Conforming Checked.lib.
Proof.
  constructor; simpl.
  - split; simpl; lia.
  - intros l H. apply reference_deflate_range in H.
    apply make_levelled_accepts. lia.
  - intros l e H. apply make_levelled_fresh in H. subst e.
    apply sealed_round_trips.
  - unfold zstd_speed. simpl. intros l H.
    apply make_levelled_accepts. lia.
  - intros l e H. apply make_levelled_fresh in H. subst e.
    apply framed_eager_round_trips.
  - apply framed_lazy_round_trips.
  - apply framed_lazy_round_trips.
  - split; simpl; lia.
  - intros l H. apply reference_deflate_range in H.
    apply make_levelled_accepts. lia.
  - intros l e H. apply make_levelled_fresh in H. subst e.
    apply sealed_round_trips.
  - split; simpl; lia.
  - intros l H. apply reference_deflate_range in H.
    apply make_levelled_accepts. lia.
  - intros l e H. apply make_levelled_fresh in H. subst e.
    apply framed_lazy_round_trips.
Qed.


(** * The adapter run on the reference library *)

Example gzip_compress_two_parts :
  fst (compress (lib := Reference.lib) [[x68]; [x69]] (New Gzip []))
  = Ok [x1f; x8b; x68; x69].
Proof. reflexivity. Qed.

Example zstd_empty_session :
  fst (roundTrip (lib := Reference.lib) [] (New Zstd [WithLevel Best]))
  = Ok [].
Proof. reflexivity. Qed.

Example zstd_unenumerated_level_panics :
  fst (Writer (lib := Reference.lib) [] (New Zstd [WithLevel 7]))
  = Panicked "failed to create zstd writer: invalid compression level".
Proof. reflexivity. Qed.

Example s2_corrupt_source_fails_on_read :
  fst (decompress (lib := Reference.lib) [x00; x01] (New S2 []))
  = Failed "corrupt input".
Proof. reflexivity. Qed.

Lemma round_trip_all_algorithms_witness :
  supported (algorithm (New Zstd [])) /\
  enumerated (level (New Zstd [])) /\
  ((exists wr rd,
      Writer (lib := Reference.lib) [] (New Zstd []) = (Ok wr, New Zstd []) /\
      Reader (Close (Write wr [x68; x69])) (New Zstd [])
      = (Ok rd, New Zstd []) /\
      ReadAll (lib := Reference.lib) rd = Ok [x68; x69]) /\
   (exists wr rd,
      Writer (lib := Reference.lib) [] (New Zstd []) = (Ok wr, New Zstd []) /\
      Reader (Close wr) (New Zstd []) = (Ok rd, New Zstd []) /\
      ReadAll (lib := Reference.lib) rd = Ok [])).
Proof.
  assert (Hs : supported (algorithm (New Zstd [])))
    by (right; left; reflexivity).
  assert (Hl : enumerated (level (New Zstd [])))
    by (right; left; reflexivity).
  split; [exact Hs|]. split; [exact Hl|].
  exact (@round_trip_all_algorithms Reference.lib reference_conforming
           (New Zstd []) [x68; x69] Hs Hl).
Defined.

Lemma unsupported_algorithm_panics_witness :
  ~ supported 999 /\
  Writer (lib := Reference.lib) [] (New 999 [])
  = (Panicked "unsupported compression algorithm", New 999 []).
Proof.
  assert (Hu : ~ supported 999).
  { unfold supported, Gzip, Zstd, S2, Snappy, Zlib, Flate. lia. }
  split; [exact Hu|].
  exact (proj1 (proj2 (@unsupported_algorithm_panics Reference.lib
                         999 [] [] [] Hu))).
Defined.



Lemma s2_snappy_ignore_level_witness :
  fst (compress (lib := Reference.lib) [[x68]] (New S2 [WithLevel Fastest]))
  = fst (compress (lib := Reference.lib) [[x68]] (New S2 [WithLevel Best])).
Proof.
  exact (proj2 (@s2_snappy_ignore_level Reference.lib S2 Fastest Best []
                  [[x68]] (or_introl eq_refl))).
Defined.

Lemma chunked_write_equivalence_witness :
  List.concat [[x01]; [x02; x03]] = [x01; x02; x03] /\
  exists (wr : io_Writer (lib := Checked.lib))
         (rd1 rd2 : io_Reader (lib := Checked.lib)),
    Writer [] (New Gzip [WithLevel Best]) = (Ok wr, New Gzip [WithLevel Best])
    /\ Reader (Close (Write wr [x01; x02; x03])) (New Gzip [WithLevel Best])
       = (Ok rd1, New Gzip [WithLevel Best])
    /\ ReadAll rd1 = Ok [x01; x02; x03]
    /\ Reader (Close (fold_left Write [[x01]; [x02; x03]] wr))
         (New Gzip [WithLevel Best])
       = (Ok rd2, New Gzip [WithLevel Best])
    /\ ReadAll rd2 = Ok [x01; x02; x03].
Proof.
  split; [reflexivity|].
  apply (@chunked_write_equivalence Checked.lib checked_conforming
           (New Gzip [WithLevel Best]) [x01; x02; x03] [[x01]; [x02; x03]]).
  - left. reflexivity.
  - do 3 right. reflexivity.
  - reflexivity.
Defined.

Lemma sessions_independent_witness :
  exists compressed2,
    forall data1,
      (w1 <- Writer (lib := Checked.lib) [] ;;
       r1 <- Reader (lib := Checked.lib) (Close (Write w1 data1)) ;;
       out1 <- lift (ReadAll r1) ;;
       w2 <- Writer (lib := Checked.lib) [] ;;
       r2 <- Reader (lib := Checked.lib) (Close (Write w2 [x02; x03])) ;;
       out2 <- lift (ReadAll r2) ;;
       ret (out1, out2, Close (Write w2 [x02; x03]))) (New Zlib [])
      = (Ok (data1, [x02; x03], compressed2), New Zlib []).
Proof.
  refine (proj2 (proj2 (@sessions_independent Checked.lib checked_conforming
            (New Zlib []) [x02; x03] _ _))).
  - do 4 right. left. reflexivity.
  - right. left. reflexivity.
Defined.

Lemma round_trip_every_level_witness :
  supported Gzip /\ enumerated Better /\
  exists (wr : io_Writer (lib := Checked.lib))
         (rd : io_Reader (lib := Checked.lib)),
    Writer [] (New Gzip [WithLevel Better])
    = (Ok wr, New Gzip [WithLevel Better]) /\
    (exists e, gzip_NewWriterLevel (Library := Checked.lib) 8 = inr e /\
               impl wr = gzipWriteCloser e) /\
    Reader (Close (Write wr [x68; x69])) (New Gzip [WithLevel Better])
    = (Ok rd, New Gzip [WithLevel Better]) /\
    ReadAll rd = Ok [x68; x69].
Proof.
  assert (Hs : supported Gzip) by (left; reflexivity).
  assert (Hl : enumerated Better) by (do 2 right; left; reflexivity).
  split; [exact Hs|]. split; [exact Hl|].
  destruct (proj2 (@round_trip_every_level Checked.lib checked_conforming
                     Gzip Better [x68; x69] Hs Hl))
    as (wr & rd & Hw & G & _ & _ & _ & Hr & Ha).
  exists wr, rd. repeat split; [exact Hw | exact (G eq_refl) | exact Hr
                               | exact Ha].
Defined.


(** * Further runs on the reference library *)

Lemma zstd_unset_level_panics_witness :
  ~ enumerated 7 /\
  zstd_NewWriter (Library := Reference.lib) 0
  = inl "invalid compression level"%string /\
  roundTrip (lib := Reference.lib) [[x68]] {| algorithm := Zstd; level := 7 |}
  = (Panicked "failed to create zstd writer: invalid compression level",
     {| algorithm := Zstd; level := 7 |}).
Proof.
  assert (Hl : ~ enumerated 7).
  { unfold enumerated, Fastest, Default, Better, Best. lia. }
  split; [exact Hl|]. split; [reflexivity|].
  exact (proj2 (@zstd_unset_level_panics Reference.lib
                  {| algorithm := Zstd; level := 7 |} [] [[x68]]
                  "invalid compression level" eq_refl Hl eq_refl)).
Defined.

Lemma decode_ignores_level_witness :
  exists compressedData,
    compress (lib := Reference.lib) [[x68]; [x69]]
      {| algorithm := Gzip; level := Fastest |}
    = (Ok compressedData, {| algorithm := Gzip; level := Fastest |}) /\
    decompress (lib := Reference.lib) compressedData
      {| algorithm := Gzip; level := Best |}
    = (Ok [x68; x69], {| algorithm := Gzip; level := Best |}).
Proof.
  refine (proj2 (@decode_ignores_level Reference.lib reference_conforming
                   Gzip Fastest Best [[x68]; [x69]] _ _)).
  - left. reflexivity.
  - intros H. discriminate H.
Defined.

Lemma Writer_panics_exactly_witness :
  exists msg,
    Writer (lib := Reference.lib) [] {| algorithm := Zstd; level := 7 |}
    = (Panicked msg, {| algorithm := Zstd; level := 7 |}).
Proof.
  apply (proj1 (@Writer_panics_exactly Reference.lib
                  {| algorithm := Zstd; level := 7 |} [])).
  right; right; left. split; [reflexivity|].
  exists "invalid compression level"%string. reflexivity.
Defined.

Lemma Reader_panics_exactly_witness :
  exists msg,
    Reader (lib := Reference.lib) [x00] (New Zlib [])
    = (Panicked msg, New Zlib []).
Proof.
  apply (proj1 (@Reader_panics_exactly Reference.lib (New Zlib []) [x00])).
  do 3 right. split; [reflexivity|].
  exists "invalid header"%string. reflexivity.
Defined.

Lemma session_appends_to_sink_witness :
  exists compressedData,
    compress (lib := Reference.lib) [[x68]] (New Snappy [])
    = (Ok compressedData, New Snappy []) /\
    Close (lib := Reference.lib)
      (WriteParts {| impl := @snappy_Writer Reference.lib false; sink := [x00] |} [[x68]])
    = ([x00] ++ compressedData)%list.
Proof.
  exact (@session_appends_to_sink Reference.lib (New Snappy []) [x00]
           [[x68]] {| impl := @snappy_Writer Reference.lib false; sink := [x00] |}
           eq_refl).
Defined.

Lemma compress_is_codec_stream_witness :
  compress (lib := Reference.lib) [[x68]; [x69]] (New Gzip [])
  = (Ok (emitted (gzip (Library := Reference.lib)) false [[x68]; [x69]]),
     New Gzip []).
Proof.
  exact (proj1 (@compress_is_codec_stream Reference.lib (New Gzip [])
                  [[x68]; [x69]]) eq_refl false eq_refl).
Defined.

Lemma chunk_loop_writes_all_witness :
  exists parts,
    writeInChunks (lib := Reference.lib) 3
      {| impl := @s2_Writer Reference.lib false; sink := [] |} [x01; x02; x03] 2 0
    = Some (WriteParts {| impl := @s2_Writer Reference.lib false; sink := [] |} parts) /\
    List.concat parts = [x01; x02; x03] /\
    Forall (fun p => (0 < List.length p <= 2)%nat) parts.
Proof.
  apply (@chunk_loop_writes_all Reference.lib
           {| impl := @s2_Writer Reference.lib false; sink := [] |} [x01; x02; x03] 2%nat).
  lia.
Defined.

Lemma chunked_streaming_round_trip_witness :
  exists (compressWriter closing : io_Writer (lib := Reference.lib))
         (decompressReader : io_Reader (lib := Reference.lib)),
    Writer (lib := Reference.lib) [] (New S2 [])
    = (Ok compressWriter, New S2 []) /\
    writeInChunks (lib := Reference.lib) 3 compressWriter [x01; x02; x03] 2 0 = Some closing /\
    Reader (lib := Reference.lib) (Close closing) (New S2 []) = (Ok decompressReader, New S2 []) /\
    ReadAll (lib := Reference.lib) decompressReader = Ok [x01; x02; x03].
Proof.
  apply (@chunked_streaming_round_trip Reference.lib reference_conforming
           (New S2 []) [x01; x02; x03] 2%nat).
  - do 2 right. left. reflexivity.
  - right. left. reflexivity.
  - lia.
Defined.

Example chunk_loop_on_five_bytes :
  writeInChunks (lib := Reference.lib) 5
    {| impl := @flateWriteCloser Reference.lib false; sink := [] |}
    [x01; x02; x03; x04; x05] 2 0
  = Some (WriteParts {| impl := @flateWriteCloser Reference.lib false; sink := [] |}
            [[x01; x02]; [x03; x04]; [x05]]).
Proof. reflexivity. Qed.
